(** * Command-latency statistics of the proxy (pkg/proxy/stats.go)

    A shallow embedding of the latency histogram, the five rolling windows,
    the window refresh, the slow-command controller, [ResetStats] and the
    session gauges, together with the properties the specification states
    about them.

    Conventions.
    - A Go [int64] (and an [atomic2.Int64], whose operations are the plain
      ones in a sequential run) is a [Z] with the wrap-around of every
      arithmetic operation written out ([Int64.add], [Int64.mul], ...).
    - A Go [float64] is a primitive binary64 float.
    - A fixed-size Go array is a list of that length; the lengths are kept
      by the shape predicates [delayInfo_shape] and [opStats_shape].
    - [cmdstats.opmap] is a [gmap string opStats]; each key owns its own
      [opStats] (the map holds one pointer per key, created by [getOpStats]).
    - Calls of the proxy callbacks [setMaySlowOpFlag] / [clearMaySlowOpFlag]
      are recorded as a list of [SlowEvent]s.
    - Log lines are not state and are left out. *)

From Stdlib Require Import ZArith List Lia.
From Stdlib Require Import Floats.PrimFloat Floats.FloatOps Floats.SpecFloat.
From stdpp Require Import base gmap list strings.

Set Warnings "-inexact-float".
Local Open Scope Z_scope.

(** ** 64-bit signed integers *)

Module Int64.

Definition modulus : Z := 18446744073709551616.
Definition min_int : Z := -9223372036854775808.
Definition max_int : Z := 9223372036854775807.

Definition in_range (z : Z) : Prop := min_int <= z <= max_int.

(** Two's complement reduction of an integer to 64 bits. *)
Definition wrap (z : Z) : Z := (z - min_int) mod modulus + min_int.

Definition add (a b : Z) : Z := wrap (a + b).
Definition sub (a b : Z) : Z := wrap (a - b).
Definition mul (a b : Z) : Z := wrap (a * b).

(** Go's [/] on integers truncates toward zero; [min_int / -1] wraps.
    Every divisor in this file is a non-zero constant or is guarded by a
    test against zero. *)
Definition quot (a b : Z) : Z := wrap (Z.quot a b).

(** [float64(x)] for an [int64] x: round to nearest, ties to even. *)
Definition to_float (z : Z) : float :=
  SF2Prim (binary_normalize prec emax z 0 false).

(** [int64(f)] for a [float64] f: truncation toward zero.  For a value
    outside the [int64] range, an infinity or a NaN the Go result is
    implementation-specific; amd64 yields [min_int]. *)
Definition of_float (f : float) : Z :=
  match Prim2SF f with
  | S754_zero _ => 0
  | S754_finite s m e =>
      let a := if 0 <=? e then Z.pos m * 2 ^ e else Z.pos m / 2 ^ (- e) in
      let v := if s then - a else a in
      if (min_int <=? v) && (v <=? max_int) then v else min_int
  | S754_infinity _ | S754_nan => min_int
  end.

End Int64.

(** ** Constants *)

Definition TPFirstGrade : Z := 5.
Definition TPFirstGradeSize : Z := 40.
Definition TPSecondGrade : Z := 25.
Definition TPSecondGradeSize : Z := 20.
Definition TPThirdGrade : Z := 250.
Definition TPThirdGradeSize : Z := 10.
Definition TPMaxNum : Z := TPFirstGradeSize + TPSecondGradeSize + TPThirdGradeSize.
Definition ClearSlowFlagPeriodRate : Z := 3.
Definition IntervalNum : nat := 5.
Definition DelayKindNum : nat := 8.

(** Window lengths, in seconds. *)
Definition IntervalMark : list Z := [1; 10; 60; 600; 3600].

(** Delay thresholds, in milliseconds. *)
Definition DelayNumMark : list Z := [50; 100; 200; 300; 500; 1000; 2000; 3000].

(** [time.Second], in nanoseconds. *)
Definition Second : Z := 1000000000.

(** ** Data model *)

(** The counters of one window ([delayInfo] in the source).  [tp] is the
    histogram, of [TPMaxNum] buckets; [delayCount] has [DelayKindNum]
    entries. *)
Record delayInfo := mkDelayInfo {
  interval : Z;
  calls : Z;
  nsecs : Z;
  nsecsmax : Z;
  avg : Z;
  qps : Z;
  tp : list Z;
  tp90 : Z;
  tp99 : Z;
  tp999 : Z;
  tp9999 : Z;
  tp100 : Z;
  delayCount : list Z;
  delay50ms : Z;
  delay100ms : Z;
  delay200ms : Z;
  delay300ms : Z;
  delay500ms : Z;
  delay1s : Z;
  delay2s : Z;
  delay3s : Z
}.

Record opStats := mkOpStats {
  opstr : string;
  totalCalls : Z;
  totalNsecs : Z;
  totalFails : Z;
  lastSetSlowTime : Z;
  lastClearSlowTime : Z;
  windows : list delayInfo;       (* the field [delayInfo [IntervalNum]*delayInfo] *)
  redis_errors : Z                (* the field [redis.errors] *)
}.

Definition delayInfo_shape (w : delayInfo) : Prop :=
  length (tp w) = Z.to_nat TPMaxNum ∧ length (delayCount w) = DelayKindNum.

Definition opStats_shape (s : opStats) : Prop :=
  length (windows s) = IntervalNum ∧ Forall delayInfo_shape (windows s).

Global Instance delayInfo_inhabited : Inhabited delayInfo :=
  populate (mkDelayInfo 0 0 0 0 0 0 [] 0 0 0 0 0 [] 0 0 0 0 0 0 0 0).

(** [&delayInfo{interval: iv}]: every other field has its zero value. *)
Definition new_delayInfo (iv : Z) : delayInfo :=
  mkDelayInfo iv 0 0 0 0 0 (replicate (Z.to_nat TPMaxNum) 0) 0 0 0 0 0
              (replicate DelayKindNum 0) 0 0 0 0 0 0 0 0.

(** The [opStats] that [getOpStats] creates for a new command name. *)
Definition new_opStats (op : string) : opStats :=
  mkOpStats op 0 0 0 0 0 (new_delayInfo <$> IntervalMark) 0.

Global Instance opStats_inhabited : Inhabited opStats := populate (new_opStats "").

(** ** The bucket upper-edge table *)

(** The body of the [init] loop that fills [cmdstats.tpdelay]. *)
Definition tpdelay_at (i : Z) : Z :=
  if i <? TPFirstGradeSize then (i + 1) * TPFirstGrade
  else if i <? TPFirstGradeSize + TPSecondGradeSize then
    TPFirstGradeSize * TPFirstGrade + (i - TPFirstGradeSize + 1) * TPSecondGrade
  else
    TPFirstGradeSize * TPFirstGrade + TPSecondGradeSize * TPSecondGrade
    + (i - TPFirstGradeSize - TPSecondGradeSize + 1) * TPThirdGrade.

Definition tpdelay : list Z :=
  (λ i : nat, tpdelay_at (Z.of_nat i)) <$> seq 0 (Z.to_nat TPMaxNum).

(** ** The bucketer: [incrTP] *)

(** The bucket index that [incrTP] computes for a duration in nanoseconds. *)
Definition tp_index (duration : Z) : Z :=
  let duration_ms := Int64.quot duration 1000000 in
  if duration_ms <=? 0 then 0
  else if duration_ms <=? TPFirstGrade * TPFirstGradeSize then
    Int64.sub
      (Int64.quot (Int64.sub (Int64.add duration_ms TPFirstGrade) 1) TPFirstGrade) 1
  else if duration_ms <=? TPFirstGrade * TPFirstGradeSize
                          + TPSecondGrade * TPSecondGradeSize then
    Int64.sub
      (Int64.add
         (Int64.quot
            (Int64.sub
               (Int64.add (Int64.sub duration_ms (TPFirstGrade * TPFirstGradeSize))
                          TPSecondGrade) 1)
            TPSecondGrade)
         TPFirstGradeSize) 1
  else if duration_ms <=? TPFirstGrade * TPFirstGradeSize
                          + TPSecondGrade * TPSecondGradeSize
                          + TPThirdGrade * TPThirdGradeSize then
    Int64.sub
      (Int64.add
         (Int64.add
            (Int64.quot
               (Int64.sub
                  (Int64.add
                     (Int64.sub
                        (Int64.sub duration_ms (TPFirstGrade * TPFirstGradeSize))
                        (TPSecondGrade * TPSecondGradeSize))
                     TPThirdGrade) 1)
               TPThirdGrade)
            TPFirstGradeSize)
         TPSecondGradeSize) 1
  else TPMaxNum - 1.

(** One window's share of an event: [calls], [nsecs], the maximum (the
    compare-and-swap succeeds at once when nothing runs in between) and the
    histogram bucket. *)
Definition incr_window (duration : Z) (index : nat) (w : delayInfo) : delayInfo :=
  let lastMax := nsecsmax w in
  mkDelayInfo (interval w)
    (Int64.add (calls w) 1)
    (Int64.add (nsecs w) duration)
    (if duration >=? Int64.add lastMax 5000000 then duration else lastMax)
    (avg w) (qps w)
    (alter (λ c, Int64.add c 1) index (tp w))
    (tp90 w) (tp99 w) (tp999 w) (tp9999 w) (tp100 w)
    (delayCount w)
    (delay50ms w) (delay100ms w) (delay200ms w) (delay300ms w)
    (delay500ms w) (delay1s w) (delay2s w) (delay3s w).

(** [for i := 0; i < n; i++ { body on a[i] }] over an array of windows. *)
Definition for_windows (n : nat) (f : delayInfo → delayInfo)
    (ws : list delayInfo) : list delayInfo :=
  foldl (λ acc i, alter f i acc) ws (seq 0 n).

Definition set_windows (ws : list delayInfo) (s : opStats) : opStats :=
  mkOpStats (opstr s) (totalCalls s) (totalNsecs s) (totalFails s)
            (lastSetSlowTime s) (lastClearSlowTime s) ws (redis_errors s).

Definition incrTP (duration : Z) (s : opStats) : opStats :=
  let index := tp_index duration in
  if index <? 0 then s
  else set_windows
         (for_windows IntervalNum (incr_window duration (Z.to_nat index)) (windows s)) s.

(** ** The threshold classifier: [incrDelayNum] *)

Definition incr_delayCount (i : nat) (w : delayInfo) : delayInfo :=
  mkDelayInfo (interval w) (calls w) (nsecs w) (nsecsmax w) (avg w) (qps w)
    (tp w) (tp90 w) (tp99 w) (tp999 w) (tp9999 w) (tp100 w)
    (alter (λ c, Int64.add c 1) i (delayCount w))
    (delay50ms w) (delay100ms w) (delay200ms w) (delay300ms w)
    (delay500ms w) (delay1s w) (delay2s w) (delay3s w).

(** [for i, v := range marks]: the thresholds from position [i] on.  The
    inner loop runs over [range IntervalMark]; the first threshold above
    [duration] ends the scan. *)
Fixpoint incrDelayNum_from (duration : Z) (i : nat) (marks : list Z)
    (ws : list delayInfo) : list delayInfo :=
  match marks with
  | [] => ws
  | v :: rest =>
      if duration >=? v then
        incrDelayNum_from duration (S i) rest
          (for_windows (length IntervalMark) (incr_delayCount i) ws)
      else ws
  end.

(** [duration] is in milliseconds. *)
Definition incrDelayNum (duration : Z) (s : opStats) : opStats :=
  set_windows (incrDelayNum_from duration 0 DelayNumMark (windows s)) s.

(** ** Recording an event: the method [incrOpStats] of [opStats] *)

(** Modelled from the spec: [redis.RespType] is declared in the redis
    package, outside the sources at hand; the statistics tell
    [redis.TypeError] from every other reply type and nothing more. *)
Inductive RespType := TypeError | TypeReply.

Definition incrOpStats (responseTime : Z) (t : RespType) (s : opStats) : opStats :=
  let s1 :=
    mkOpStats (opstr s)
      (Int64.add (totalCalls s) 1)
      (Int64.add (totalNsecs s) responseTime)
      (totalFails s) (lastSetSlowTime s) (lastClearSlowTime s) (windows s)
      (match t with
       | TypeError => Int64.add (redis_errors s) 1
       | TypeReply => redis_errors s
       end) in
  incrDelayNum (Int64.quot responseTime 1000000) (incrTP responseTime s1).

(** A run of events on one command, oldest first. *)
Definition record_events (evs : list (Z * RespType)) (s : opStats) : opStats :=
  foldl (λ acc ev, incrOpStats ev.1 ev.2 acc) s evs.

(** ** Refreshing a window *)

(** One of the four scans of [refresh4TpInfo]:
    [for ; i < len(s.tp); i++ { count += s.tp[i]; if count >= tpnum || i == len(s.tp)-1 { index = i; break } }].
    [fuel] is [len(s.tp) - i].  The result is the index that was set, if the
    loop left through [break], with the final [i] and [count]. *)
Fixpoint tp_scan (h : list Z) (tpnum : Z) (fuel : nat) (i : nat) (count : Z)
    : option Z * nat * Z :=
  match fuel with
  | O => (None, i, count)
  | S fuel' =>
      let count' := Int64.add count (h !!! i) in
      if (count' >=? tpnum) || (Z.of_nat i =? TPMaxNum - 1)
      then (Some (Z.of_nat i), i, count')
      else tp_scan h tpnum fuel' (S i) count'
  end.

(** The first scan starts at bucket 0 with [index1] at its zero value. *)
Definition tp_first (h : list Z) (tpnum : Z) : Z * nat * Z :=
  let '(ix, i, count) := tp_scan h tpnum (Z.to_nat TPMaxNum) 0%nat 0 in
  (default 0 ix, i, count).

(** Each later percentile: stay on the bucket when it already reaches the
    target, or go on from the next one. *)
Definition tp_next (h : list Z) (tpnum : Z) (i : nat) (count : Z) : Z * nat * Z :=
  if (count >=? tpnum) || (Z.of_nat i =? TPMaxNum - 1) then (Z.of_nat i, i, count)
  else
    let '(ix, i', count') :=
      tp_scan h tpnum (Z.to_nat TPMaxNum - S i) (S i) count in
    (default 0 ix, i', count').

(** [int64(float64(calls) * persents)]. *)
Definition tpnum_of (callsv : Z) (persents : float) : Z :=
  Int64.of_float (PrimFloat.mul (Int64.to_float callsv) persents).

(** The four bucket indices [index1 .. index4] of [refresh4TpInfo]. *)
Definition tp_indices (h : list Z) (callsv : Z) : Z * Z * Z * Z :=
  let tpnum1 := tpnum_of callsv 0.9%float in
  let tpnum2 := tpnum_of callsv 0.99%float in
  let tpnum3 := tpnum_of callsv 0.999%float in
  let tpnum4 := tpnum_of callsv 0.9999%float in
  let '(index1, i, count) := tp_first h tpnum1 in
  let '(index2, i, count) := tp_next h tpnum2 i count in
  let '(index3, i, count) := tp_next h tpnum3 i count in
  let '(index4, i, count) := tp_next h tpnum4 i count in
  (index1, index2, index3, index4).

Definition set_tp4 (a b c d : Z) (w : delayInfo) : delayInfo :=
  mkDelayInfo (interval w) (calls w) (nsecs w) (nsecsmax w) (avg w) (qps w)
    (tp w) a b c d (tp100 w) (delayCount w)
    (delay50ms w) (delay100ms w) (delay200ms w) (delay300ms w)
    (delay500ms w) (delay1s w) (delay2s w) (delay3s w).

Definition refresh4TpInfo (w : delayInfo) : delayInfo :=
  if calls w =? 0 then set_tp4 0 0 0 0 w
  else
    let '(index1, index2, index3, index4) := tp_indices (tp w) (calls w) in
    if (index1 >=? 0) && (index2 >=? index1) && (index3 >=? index2)
       && (index4 >=? index3) && (index4 <? TPMaxNum)
    then set_tp4 (tpdelay !!! Z.to_nat index1) (tpdelay !!! Z.to_nat index2)
                 (tpdelay !!! Z.to_nat index3) (tpdelay !!! Z.to_nat index4) w
    else set_tp4 (-1) (-1) (-1) (-1) w.

Definition refreshTpInfo (w : delayInfo) : delayInfo :=
  let w := refresh4TpInfo w in
  mkDelayInfo (interval w) (calls w) (nsecs w) (nsecsmax w)
    (if calls w =? 0 then 0
     else Int64.quot (Int64.quot (nsecs w) 1000000) (calls w))
    (qps w) (tp w) (tp90 w) (tp99 w) (tp999 w) (tp9999 w)
    (Int64.quot (nsecsmax w) 1000000)
    (delayCount w)
    (delay50ms w) (delay100ms w) (delay200ms w) (delay300ms w)
    (delay500ms w) (delay1s w) (delay2s w) (delay3s w).

Definition resetTpInfo (w : delayInfo) : delayInfo :=
  mkDelayInfo (interval w) 0 0 0 (avg w) (qps w)
    (replicate (Z.to_nat TPMaxNum) 0)
    (tp90 w) (tp99 w) (tp999 w) (tp9999 w) (tp100 w) (delayCount w)
    (delay50ms w) (delay100ms w) (delay200ms w) (delay300ms w)
    (delay500ms w) (delay1s w) (delay2s w) (delay3s w).

Definition refreshDelayInfo (w : delayInfo) : delayInfo :=
  mkDelayInfo (interval w) (calls w) (nsecs w) (nsecsmax w) (avg w) (qps w)
    (tp w) (tp90 w) (tp99 w) (tp999 w) (tp9999 w) (tp100 w) (delayCount w)
    (delayCount w !!! 0%nat) (delayCount w !!! 1%nat) (delayCount w !!! 2%nat)
    (delayCount w !!! 3%nat) (delayCount w !!! 4%nat) (delayCount w !!! 5%nat)
    (delayCount w !!! 6%nat) (delayCount w !!! 7%nat).

Definition resetDelayInfo (w : delayInfo) : delayInfo :=
  mkDelayInfo (interval w) (calls w) (nsecs w) (nsecsmax w) (avg w) (qps w)
    (tp w) (tp90 w) (tp99 w) (tp999 w) (tp9999 w) (tp100 w)
    (replicate DelayKindNum 0)
    (delay50ms w) (delay100ms w) (delay200ms w) (delay300ms w)
    (delay500ms w) (delay1s w) (delay2s w) (delay3s w).

(** [math.Max(0, x)] for an x that is not a NaN. *)
Definition float_max0 (x : float) : float :=
  if PrimFloat.ltb 0%float x then x else 0%float.

(** [int64(max(0, float64(calls)) / float64(since) * float64(time.Second) + 0.5)],
    [since] being [time.Since(LastRefreshTime[index])] in nanoseconds. *)
Definition window_qps (callsv since : Z) : Z :=
  Int64.of_float
    (PrimFloat.add
       (PrimFloat.mul
          (PrimFloat.div (float_max0 (Int64.to_float callsv)) (Int64.to_float since))
          (Int64.to_float Second))
       0.5%float).

Definition set_qps (q : Z) (w : delayInfo) : delayInfo :=
  mkDelayInfo (interval w) (calls w) (nsecs w) (nsecsmax w) (avg w) q
    (tp w) (tp90 w) (tp99 w) (tp999 w) (tp9999 w) (tp100 w) (delayCount w)
    (delay50ms w) (delay100ms w) (delay200ms w) (delay300ms w)
    (delay500ms w) (delay1s w) (delay2s w) (delay3s w).

(** What [RefreshOpStats] does to the window it is given. *)
Definition refresh_window (since : Z) (w : delayInfo) : delayInfo :=
  resetDelayInfo
    (refreshDelayInfo
       (resetTpInfo (refreshTpInfo (set_qps (window_qps (calls w) since) w)))).

Definition RefreshOpStats (since : Z) (index : Z) (s : opStats) : opStats :=
  if (index <? 0) || (index >=? Z.of_nat IntervalNum) then s
  else set_windows (alter (refresh_window since) (Z.to_nat index) (windows s)) s.

(** ** The registry and the process-wide counters *)

(** The package variable [cmdstats], without its lock and without the
    constant table [tpdelay] (see [tpdelay] above). *)
Record cmdstats_t := mkCmdstats {
  opmap : gmap string opStats;
  total : Z;
  fails : Z;
  cmd_redis_errors : Z;           (* the field [redis.errors] *)
  cmd_qps : Z;
  refreshPeriod : Z;
  logSlowerThan : Z;
  autoSetSlowFlag : bool
}.

(** The package variable [sessions]. *)
Record sessions_t := mkSessions {
  sessions_total : Z;
  sessions_alive : Z
}.

Record state := mkState {
  cmdstats : cmdstats_t;
  sessions : sessions_t
}.

Definition set_opmap (m : gmap string opStats) (c : cmdstats_t) : cmdstats_t :=
  mkCmdstats m (total c) (fails c) (cmd_redis_errors c) (cmd_qps c)
             (refreshPeriod c) (logSlowerThan c) (autoSetSlowFlag c).

(** The state after both [init] functions, before any background tick. *)
Definition init_cmdstats : cmdstats_t := mkCmdstats ∅ 0 0 0 0 Second 0 false.
Definition init_state : state := mkState init_cmdstats (mkSessions 0 0).

(** Every entry is filed under its own name: [getOpStats] is the only
    writer of the map. *)
Definition registry_wf (m : gmap string opStats) : Prop :=
  map_Forall (λ k v, opstr v = k) m.

Definition getOpStats (op : string) (create : bool) (c : cmdstats_t)
    : option opStats * cmdstats_t :=
  match opmap c !! op with
  | Some s => (Some s, c)
  | None =>
      if create then
        let s := new_opStats op in (Some s, set_opmap (<[op := s]> (opmap c)) c)
      else (None, c)
  end.

(** [s = getOpStats(op, true)] followed by a method call on [s]: the entry
    is updated in place, through the pointer the map holds. *)
Definition with_op (op : string) (f : opStats → opStats) (c : cmdstats_t) : cmdstats_t :=
  let c1 := (getOpStats op true c).2 in
  set_opmap (alter f op (opmap c1)) c1.

(** Modelled from the spec: the type [Request] is declared elsewhere in the
    proxy package; the statistics read its fields [OpStr] and [ReceiveTime]
    (nanoseconds since the epoch). *)
Record Request := mkRequest {
  OpStr : string;
  ReceiveTime : Z
}.

(** The package function [incrOpStats(r, t)]; [now] is
    [time.Now().UnixNano()] and [None] is a nil request. *)
Definition incrOpStats_request (now : Z) (r : option Request) (t : RespType)
    (c : cmdstats_t) : cmdstats_t :=
  match r with
  | None => c
  | Some r =>
      let responseTime := Int64.sub now (ReceiveTime r) in
      let c := with_op (OpStr r) (incrOpStats responseTime t) c in
      let c := with_op "ALL" (incrOpStats responseTime t) c in
      match t with
      | TypeError =>
          mkCmdstats (opmap c) (total c) (fails c) (Int64.add (cmd_redis_errors c) 1)
                     (cmd_qps c) (refreshPeriod c) (logSlowerThan c) (autoSetSlowFlag c)
      | TypeReply => c
      end
  end.

(** The aggregator's inner loop for one window that is due:
    [for _, v := range cmdstats.opmap { v.RefreshOpStats(i) }]. *)
Definition refresh_all (since : Z) (index : Z) (c : cmdstats_t) : cmdstats_t :=
  set_opmap (RefreshOpStats since index <$> opmap c) c.

Definition StatsSetRefreshPeriod (d : Z) (c : cmdstats_t) : cmdstats_t :=
  if d >=? 0 then
    mkCmdstats (opmap c) (total c) (fails c) (cmd_redis_errors c) (cmd_qps c)
               d (logSlowerThan c) (autoSetSlowFlag c)
  else c.

Definition StatsSetLogSlowerThan (ms : Z) (c : cmdstats_t) : cmdstats_t :=
  if ms >=? 0 then
    mkCmdstats (opmap c) (total c) (fails c) (cmd_redis_errors c) (cmd_qps c)
               (refreshPeriod c) ms (autoSetSlowFlag c)
  else c.

(** ** The slow-command controller *)

(** Modelled from the spec: [setMaySlowOpFlag] and [clearMaySlowOpFlag], the
    callbacks [SetMaySlowOp(opstr)] / [ClearMaySlowOp(opstr)] into the proxy,
    are defined outside the sources at hand; a call is recorded with its
    argument. *)
Inductive SlowEvent :=
  | SetMaySlowOp (op : string)
  | ClearMaySlowOp (op : string).

Global Instance SlowEvent_eq_dec : EqDecision SlowEvent.
Proof. solve_decision. Defined.

Definition StatsSetAutoSetSlowFlag (autoset : bool) (c : cmdstats_t)
    : cmdstats_t * list SlowEvent :=
  let c := mkCmdstats (opmap c) (total c) (fails c) (cmd_redis_errors c) (cmd_qps c)
                      (refreshPeriod c) (logSlowerThan c) autoset in
  if autoSetSlowFlag c then (c, [])
  else (c, (λ kv : string * opStats, ClearMaySlowOp (opstr kv.2)) <$> map_to_list (opmap c)).

Definition set_lastSetSlowTime (t : Z) (v : opStats) : opStats :=
  mkOpStats (opstr v) (totalCalls v) (totalNsecs v) (totalFails v)
            t (lastClearSlowTime v) (windows v) (redis_errors v).

Definition set_lastClearSlowTime (t : Z) (v : opStats) : opStats :=
  mkOpStats (opstr v) (totalCalls v) (totalNsecs v) (totalFails v)
            (lastSetSlowTime v) t (windows v) (redis_errors v).

(** The test that guards the set branch:
    [v.delayInfo[0].tp100 * 1e3 > cmdstats.logSlowerThan.Int64() && v.opstr != "ALL"]. *)
Definition slow_set_cond (lst : Z) (v : opStats) : bool :=
  (Int64.mul (tp100 (windows v !!! 0%nat)) 1000 >? lst)
  && bool_decide (opstr v ≠ "ALL").

(** The test of the [else if] branch. *)
Definition slow_clear_cond (clearSlowDuration now : Z) (v : opStats) : bool :=
  (lastSetSlowTime v >=? lastClearSlowTime v)
  && (Int64.sub now (lastSetSlowTime v) >=? clearSlowDuration).

(** The body of [for _, v := range cmdstats.opmap] in the controller. *)
Definition slow_step (lst clearSlowDuration now : Z) (v : opStats)
    : opStats * list SlowEvent :=
  if slow_set_cond lst v then
    (set_lastSetSlowTime now v, [SetMaySlowOp (opstr v)])
  else if slow_clear_cond clearSlowDuration now v then
    (set_lastClearSlowTime now v, [ClearMaySlowOp (opstr v)])
  else (v, []).

(** The head of a round: [None] when the round is skipped, else
    [clearSlowDuration]. *)
Definition slow_tick_begin (c : cmdstats_t) : option Z :=
  if (refreshPeriod c <=? 0) || negb (autoSetSlowFlag c) then None
  else Some (Int64.mul (refreshPeriod c) ClearSlowFlagPeriodRate).

(** The part of a round after the sleep, at time [now].  Go ranges over
    the map in an unspecified order; the callbacks are listed in the order of
    [map_to_list], and every property below is about membership only. *)
Definition slow_tick_sweep (clearSlowDuration now : Z) (c : cmdstats_t)
    : cmdstats_t * list SlowEvent :=
  if autoSetSlowFlag c then
    (set_opmap ((λ v, (slow_step (logSlowerThan c) clearSlowDuration now v).1)
                  <$> opmap c) c,
     mjoin ((λ kv : string * opStats,
               (slow_step (logSlowerThan c) clearSlowDuration now kv.2).2)
              <$> map_to_list (opmap c)))
  else (c, []).

(** One round of the controller with no admin call during its sleep. *)
Definition slow_tick (now : Z) (c : cmdstats_t) : cmdstats_t * list SlowEvent :=
  match slow_tick_begin c with
  | None => (c, [])
  | Some clearSlowDuration => slow_tick_sweep clearSlowDuration now c
  end.

(** ** [ResetStats] and the session gauges *)

Definition reset_op (v : opStats) : opStats :=
  mkOpStats (opstr v) 0 0 0 (lastSetSlowTime v) (lastClearSlowTime v) (windows v) 0.

Definition ResetStats (st : state) : state :=
  let c := cmdstats st in
  mkState
    (mkCmdstats (reset_op <$> opmap c) 0 0 0 (cmd_qps c)
                (refreshPeriod c) (logSlowerThan c) (autoSetSlowFlag c))
    (mkSessions (sessions_alive (sessions st)) (sessions_alive (sessions st))).

(** [incrSessions] returns the new number of live sessions. *)
Definition incrSessions (st : state) : Z * state :=
  let alive := Int64.add (sessions_alive (sessions st)) 1 in
  (alive,
   mkState (cmdstats st)
           (mkSessions (Int64.add (sessions_total (sessions st)) 1) alive)).

Definition decrSessions (st : state) : state :=
  mkState (cmdstats st)
          (mkSessions (sessions_total (sessions st))
                      (Int64.sub (sessions_alive (sessions st)) 1)).

Definition SessionsTotal (st : state) : Z := sessions_total (sessions st).
Definition SessionsAlive (st : state) : Z := sessions_alive (sessions st).
Definition OpTotal (st : state) : Z := total (cmdstats st).
Definition OpFails (st : state) : Z := fails (cmdstats st).
Definition OpRedisErrors (st : state) : Z := cmd_redis_errors (cmdstats st).

(** ** The bucketer as the specification words it *)

(** The ceiling of [a / b] for a positive [b]. *)
Definition ceil_div (a b : Z) : Z := - ((- a) / b).

(** Section 4.B: [m] is the floor of [d_ns / 1e6]; the grades follow. *)
Definition index_spec (d_ns : Z) : Z :=
  let m := d_ns / 1000000 in
  if m <=? 0 then 0
  else if m <=? 200 then ceil_div m 5 - 1
  else if m <=? 700 then ceil_div (m - 200) 25 + 39
  else if m <=? 3200 then ceil_div (m - 700) 250 + 59
  else 69.

(** ** Auxiliary notions for the statements *)

(** Inside its four grades [incrTP] never overflows: the index in plain
    integer arithmetic, with Go's truncating division. *)
Definition tp_index_plain (duration : Z) : Z :=
  let q := Z.quot duration 1000000 in
  if q <=? 0 then 0
  else if q <=? 200 then Z.quot (q + 4) 5 - 1
  else if q <=? 700 then Z.quot (q - 200 + 24) 25 + 39
  else if q <=? 3200 then Z.quot (q - 700 + 249) 250 + 59
  else 69.

(** What [incrDelayNum] does to a single window: the thresholds from
    position [i] on. *)
Fixpoint classify_window (duration : Z) (i : nat) (marks : list Z)
    (w : delayInfo) : delayInfo :=
  match marks with
  | [] => w
  | v :: rest =>
      if duration >=? v then classify_window duration (S i) rest (incr_delayCount i w)
      else w
  end.

Definition sum_Z (l : list Z) : Z := foldr Z.add 0 l.

(** The number of events whose duration, in whole milliseconds as
    [incrOpStats] passes it to the classifier, reaches the threshold. *)
Definition count_reaching (threshold : Z) (evs : list (Z * RespType)) : Z :=
  Z.of_nat (length (filter (λ ev, threshold <= Int64.quot ev.1 1000000) evs)).

(** A window right after a reset of its counters. *)
Definition window_cleared (w : delayInfo) : Prop :=
  calls w = 0 ∧ tp w = replicate (Z.to_nat TPMaxNum) 0
  ∧ delayCount w = replicate DelayKindNum 0.

(** What a window holds after [n] events since the reset of its counters. *)
Definition window_after (n : Z) (w : delayInfo) : Prop :=
  calls w = n ∧ length (tp w) = Z.to_nat TPMaxNum
  ∧ Forall (λ c, 0 <= c) (tp w) ∧ sum_Z (tp w) = n.

(** The threshold counters of a window that has seen the events [evs]
    since its reset. *)
Definition delays_counted (evs : list (Z * RespType)) (w : delayInfo) : Prop :=
  length (delayCount w) = DelayKindNum
  ∧ ∀ k mark, DelayNumMark !! k = Some mark →
      delayCount w !! k = Some (count_reaching mark evs).

Definition ms (n : Z) : Z := n * 1000000.

(** ** Sample runs *)

(** One request for GET answered after 6 ms, recorded on a fresh entry. *)
Definition get_after_6ms : opStats :=
  incrOpStats (ms 6) TypeReply (new_opStats "GET").

(** The same entry once the one-second window has been refreshed, one
    second after the previous refresh. *)
Definition get_refreshed : opStats := RefreshOpStats Second 0 get_after_6ms.

(** Ten requests for GET, each answered after 6 ms, and the refresh of the
    one-second window after them. *)
Definition get_ten_6ms : opStats :=
  record_events (replicate 10 (ms 6, TypeReply)) (new_opStats "GET").

Definition get_ten_refreshed : opStats := RefreshOpStats Second 0 get_ten_6ms.

(** A proxy that has been told to flag slow commands above 10000, has
    served one GET in 7 ms and has refreshed its one-second window. *)
Definition sample_now : Z := 1700000000000000000.

Definition sample_cmdstats : cmdstats_t :=
  refresh_all Second 0
    (incrOpStats_request sample_now
       (Some (mkRequest "GET" (sample_now - ms 7))) TypeReply
       (StatsSetLogSlowerThan 10000
          (StatsSetAutoSetSlowFlag true init_cmdstats).1)).

(** * Properties *)

(** ** Facts about 64-bit arithmetic *)

Module Int64Facts.
Import Int64.

Lemma wrap_in_range z : in_range z → wrap z = z.
Proof.
  unfold in_range, wrap, min_int, max_int, modulus. intros Hz.
  rewrite Z.mod_small; lia.
Qed.

Lemma wrap_range z : in_range (wrap z).
Proof.
  unfold in_range, wrap, min_int, max_int, modulus.
  pose proof (Z.mod_pos_bound (z - -9223372036854775808) 18446744073709551616).
  lia.
Qed.

Lemma add_small a b : in_range (a + b) → add a b = a + b.
Proof. apply wrap_in_range. Qed.

Lemma sub_small a b : in_range (a - b) → sub a b = a - b.
Proof. apply wrap_in_range. Qed.

Lemma mul_small a b : in_range (a * b) → mul a b = a * b.
Proof. apply wrap_in_range. Qed.

(** Division by a positive constant never leaves the range. *)
Lemma quot_pos_small a b : in_range a → 0 < b → quot a b = Z.quot a b.
Proof.
  intros Ha Hb. apply wrap_in_range.
  unfold in_range, min_int, max_int in *.
  Z.to_euclidean_division_equations. nia.
Qed.

(** The only quotient of two 64-bit integers that overflows. *)
Lemma quot_small a b :
  in_range a → in_range b → b ≠ 0 → ¬ (a = min_int ∧ b = -1) →
  quot a b = Z.quot a b.
Proof.
  intros Ha Hb Hb0 Hov. apply wrap_in_range.
  unfold in_range, min_int, max_int in *.
  Z.to_euclidean_division_equations. nia.
Qed.

End Int64Facts.

(** ** The bucketer *)

Section Bucketer.
Import Int64 Int64Facts.

(** Removes an innermost [wrap] whose argument is visibly in range. *)
Ltac unwrap_innermost :=
  match goal with
  | |- context [wrap ?z] =>
      lazymatch z with
      | context [wrap _] => fail
      | _ => rewrite (wrap_in_range z)
               by (unfold in_range, min_int, max_int;
                   Z.to_euclidean_division_equations; lia)
      end
  end.

Lemma tp_index_plain_eq d : in_range d → tp_index d = tp_index_plain d.
Proof.
  intros Hd. unfold tp_index, tp_index_plain.
  rewrite (quot_pos_small d 1000000) by (done || lia).
  set (q := Z.quot d 1000000).
  unfold TPMaxNum, TPFirstGrade, TPFirstGradeSize, TPSecondGrade,
    TPSecondGradeSize, TPThirdGrade, TPThirdGradeSize.
  change (5 * 40) with 200. change (200 + 25 * 20) with 700.
  change (700 + 250 * 10) with 3200. change (40 + 20 + 10 - 1) with 69.
  unfold add, sub, quot.
  repeat case_match; try reflexivity;
    repeat match goal with H : (_ <=? _) = _ |- _ =>
      first [apply Z.leb_le in H | apply Z.leb_gt in H] end;
    repeat unwrap_innermost;
    Z.to_euclidean_division_equations; lia.
Qed.

Lemma tp_index_bounds d : 0 <= tp_index d < TPMaxNum.
Proof.
  unfold tp_index. generalize (quot d 1000000). intros q.
  unfold TPMaxNum, TPFirstGrade, TPFirstGradeSize, TPSecondGrade,
    TPSecondGradeSize, TPThirdGrade, TPThirdGradeSize.
  change (5 * 40) with 200. change (200 + 25 * 20) with 700.
  change (700 + 250 * 10) with 3200. change (40 + 20 + 10 - 1) with 69.
  unfold add, sub, quot.
  repeat case_match; try lia;
    repeat match goal with H : (_ <=? _) = _ |- _ =>
      first [apply Z.leb_le in H | apply Z.leb_gt in H] end;
    repeat unwrap_innermost;
    Z.to_euclidean_division_equations; lia.
Qed.

End Bucketer.

Section BucketerSpec.
Import Int64 Int64Facts.

Lemma tp_index_plain_spec d : tp_index_plain d = index_spec d.
Proof.
  unfold tp_index_plain, index_spec, ceil_div.
  repeat case_match; try reflexivity;
    repeat match goal with H : (_ <=? _) = _ |- _ =>
      first [apply Z.leb_le in H | apply Z.leb_gt in H] end;
    Z.to_euclidean_division_equations; lia.
Qed.

(** C3. For every 64-bit duration in nanoseconds the index computed by
    [incrTP] is the one of section 4.B (0 up to 0 ms, then the ceilings over
    the three grades, 69 above 3200 ms); the nine sample durations of S1 fall
    into buckets 0, 0, 1, 39, 40, 59, 60, 69, 69, whose upper edges in
    [tpdelay] are 5, 5, 10, 200, 225, 700, 950, 3200, 3200 ms. *)
Theorem bucketer_index_spec :
  (∀ d_ns, in_range d_ns → tp_index d_ns = index_spec d_ns)
  ∧ tp_index <$> (ms <$> [1; 5; 6; 200; 201; 700; 701; 3200; 5000])
    = [0; 0; 1; 39; 40; 59; 60; 69; 69]
  ∧ (λ i, tpdelay !!! Z.to_nat i) <$> [0; 0; 1; 39; 40; 59; 60; 69; 69]
    = [5; 5; 10; 200; 225; 700; 950; 3200; 3200].
Proof.
  split; [|split].
  - intros d Hd. rewrite tp_index_plain_eq by done. apply tp_index_plain_spec.
  - vm_compute. reflexivity.
  - vm_compute. reflexivity.
Qed.

Lemma bucketer_index_spec_witness :
  in_range (-1500000) ∧ tp_index (-1500000) = index_spec (-1500000).
Proof.
  split.
  - unfold in_range, min_int, max_int. lia.
  - apply (proj1 bucketer_index_spec). unfold in_range, min_int, max_int. lia.
Defined.

End BucketerSpec.

(** ** Loops over the windows *)

Section Windows.
Import Int64 Int64Facts.

Lemma for_windows_lookup n f (ws : list delayInfo) j :
  for_windows n f ws !! j = if decide (j < n)%nat then f <$> ws !! j else ws !! j.
Proof.
  unfold for_windows. induction n as [|n IH].
  - cbn [seq foldl]. destruct (decide (j < 0)%nat); [lia|done].
  - rewrite seq_S, foldl_app. cbn [foldl Nat.add].
    destruct (decide (j = n)) as [->|Hne].
    + rewrite list_lookup_alter_eq, IH.
      destruct (decide (n < n)%nat), (decide (n < S n)%nat); try lia. done.
    + rewrite list_lookup_alter_ne by done. rewrite IH.
      destruct (decide (j < n)%nat), (decide (j < S n)%nat); try lia; done.
Qed.

Lemma for_windows_fmap n f (ws : list delayInfo) :
  (length ws ≤ n)%nat → for_windows n f ws = f <$> ws.
Proof.
  intros Hlen. apply list_eq. intros j.
  rewrite for_windows_lookup, list_lookup_fmap.
  case_decide; [done|].
  rewrite (lookup_ge_None_2 ws j) by lia. done.
Qed.

Lemma incrDelayNum_from_fmap d i marks (ws : list delayInfo) :
  (length ws ≤ length IntervalMark)%nat →
  incrDelayNum_from d i marks ws = classify_window d i marks <$> ws.
Proof.
  revert i ws. induction marks as [|v rest IH]; intros i ws Hlen; simpl.
  - by rewrite list_fmap_id.
  - case_match; [|by rewrite list_fmap_id].
    rewrite for_windows_fmap by done.
    rewrite IH by (by rewrite length_fmap).
    rewrite <- list_fmap_compose. done.
Qed.

(** With its five windows in place, an event acts on every window alike. *)
Lemma incrOpStats_windows d t s :
  length (windows s) = IntervalNum →
  windows (incrOpStats d t s)
  = (λ w, classify_window (quot d 1000000) 0 DelayNumMark
            (incr_window d (Z.to_nat (tp_index d)) w)) <$> windows s.
Proof.
  intros Hlen. unfold incrOpStats, incrDelayNum, incrTP.
  pose proof (tp_index_bounds d) as Hb.
  destruct (tp_index d <? 0) eqn:Hneg; [apply Z.ltb_lt in Hneg; lia|].
  cbn [windows set_windows]. rewrite for_windows_fmap by lia.
  rewrite incrDelayNum_from_fmap by (rewrite length_fmap, Hlen; done).
  rewrite <- list_fmap_compose. done.
Qed.

Lemma classify_window_calls d i marks w :
  calls (classify_window d i marks w) = calls w
  ∧ tp (classify_window d i marks w) = tp w
  ∧ length (delayCount (classify_window d i marks w)) = length (delayCount w).
Proof.
  revert i w. induction marks as [|v rest IH]; intros i w; simpl; [done|].
  case_match; [|done].
  destruct (IH (S i) (incr_delayCount i w)) as (-> & -> & ->). simpl.
  by rewrite length_alter.
Qed.

Lemma incrOpStats_shape d t s : opStats_shape s → opStats_shape (incrOpStats d t s).
Proof.
  intros [Hlen Hall]. split.
  - rewrite incrOpStats_windows by done. by rewrite length_fmap.
  - rewrite incrOpStats_windows by done. apply Forall_fmap.
    eapply Forall_impl; [exact Hall|]. intros w [Htp Hdc].
    destruct (classify_window_calls (quot d 1000000) 0 DelayNumMark
                (incr_window d (Z.to_nat (tp_index d)) w)) as (_ & Ht & Hd).
    split; [rewrite Ht|rewrite Hd]; cbn [tp delayCount incr_window];
      [by rewrite length_alter|done].
Qed.

Lemma record_events_snoc evs ev s :
  record_events (evs ++ [ev]) s = incrOpStats ev.1 ev.2 (record_events evs s).
Proof. unfold record_events. by rewrite foldl_app. Qed.

Lemma record_events_shape evs s : opStats_shape s → opStats_shape (record_events evs s).
Proof.
  intros Hs. induction evs as [|ev evs IH] using rev_ind; [done|].
  rewrite record_events_snoc. by apply incrOpStats_shape.
Qed.

(** Sums of counters. *)

Lemma sum_Z_alter (f : Z → Z) l i c :
  l !! i = Some c → sum_Z (alter f i l) = sum_Z l - c + f c.
Proof.
  revert i. induction l as [|x l IH]; intros [|i] Hi; simplify_eq/=.
  - lia.
  - rewrite (IH i) by done. lia.
Qed.

Lemma sum_Z_bound l i c :
  Forall (λ x, 0 <= x) l → l !! i = Some c → 0 <= c <= sum_Z l.
Proof.
  intros Hall. revert i. induction Hall as [|x l Hx Hall IH]; intros [|i] Hi;
    simplify_eq/=.
  - assert (0 <= sum_Z l); [|lia].
    clear -Hall. induction Hall; simpl; lia.
  - specialize (IH i Hi). lia.
Qed.

Lemma sum_Z_replicate n : sum_Z (replicate n 0) = 0.
Proof. induction n; simpl; lia. Qed.

End Windows.

(** ** Counting events: [calls] and the histogram *)

Section Counting.
Import Int64 Int64Facts.

Lemma window_cleared_after w : window_cleared w → window_after 0 w.
Proof.
  intros (Hc & Htp & _). unfold window_after. rewrite Htp.
  split; [done|]. split; [by rewrite length_replicate|].
  split; [by apply Forall_replicate|apply sum_Z_replicate].
Qed.

Lemma incr_window_after n d i w :
  0 <= n < max_int → (i < Z.to_nat TPMaxNum)%nat →
  window_after n w → window_after (n + 1) (incr_window d i w).
Proof.
  intros Hn Hi (Hc & Hlen & Hpos & Hsum). unfold window_after.
  cbn [calls tp incr_window].
  destruct (lookup_lt_is_Some_2 (tp w) i) as [c Hc']; [lia|].
  pose proof (sum_Z_bound _ _ _ Hpos Hc') as Hcb.
  assert (Hadd : add c 1 = c + 1)
    by (apply add_small; unfold in_range, min_int, max_int in *; lia).
  split; [|split; [|split]].
  - rewrite Hc. apply add_small. unfold in_range, min_int, max_int in *. lia.
  - by rewrite length_alter.
  - apply Forall_alter; [done|]. intros x Hx Hx0.
    assert (x = c) as -> by congruence. lia.
  - rewrite (sum_Z_alter _ _ _ _ Hc'). lia.
Qed.

Lemma record_events_after evs s :
  opStats_shape s → Forall window_cleared (windows s) →
  Z.of_nat (length evs) <= max_int →
  Forall (window_after (Z.of_nat (length evs))) (windows (record_events evs s)).
Proof.
  intros Hs Hcl. induction evs as [|ev evs IH] using rev_ind; intros Hlen.
  - eapply Forall_impl; [exact Hcl|]. apply window_cleared_after.
  - rewrite length_app in Hlen. cbn [length] in Hlen.
    rewrite record_events_snoc.
    rewrite incrOpStats_windows by (apply record_events_shape; done).
    apply Forall_fmap. eapply Forall_impl; [apply IH; lia|].
    intros w Hw. unfold compose.
    pose proof (tp_index_bounds ev.1) as Hb.
    eapply (incr_window_after _ ev.1 (Z.to_nat (tp_index ev.1))) in Hw; [|lia|lia].
    destruct (classify_window_calls (quot ev.1 1000000) 0 DelayNumMark
                (incr_window ev.1 (Z.to_nat (tp_index ev.1)) w)) as (Hc & Ht & _).
    unfold window_after in *. rewrite Hc, Ht.
    rewrite length_app. cbn [length].
    replace (Z.of_nat (length evs + 1)) with (Z.of_nat (length evs) + 1) by lia.
    done.
Qed.

(** C4. An event recorded by [incrOpStats] adds one to [calls] and to one
    histogram bucket, the same in each of the five windows, and changes no
    other bucket; so after N events on windows that were just reset, every
    window has [calls = N] and a histogram that sums to N (N below 2^63,
    where the 64-bit counters wrap). *)
Theorem incrOpStats_counts_events :
  (∀ s d t, opStats_shape s →
     ∃ i, (i < Z.to_nat TPMaxNum)%nat
       ∧ length (windows (incrOpStats d t s)) = IntervalNum
       ∧ ∀ j w, windows s !! j = Some w →
           ∃ w', windows (incrOpStats d t s) !! j = Some w'
             ∧ calls w' = add (calls w) 1
             ∧ tp w' = alter (λ c, add c 1) i (tp w))
  ∧ (∀ s evs, opStats_shape s → Forall window_cleared (windows s) →
       Z.of_nat (length evs) <= max_int →
       ∀ j, (j < IntervalNum)%nat →
         ∃ w', windows (record_events evs s) !! j = Some w'
           ∧ calls w' = Z.of_nat (length evs)
           ∧ sum_Z (tp w') = Z.of_nat (length evs)).
Proof.
  split.
  - intros s d t [Hlen Hall]. exists (Z.to_nat (tp_index d)).
    pose proof (tp_index_bounds d) as Hb.
    rewrite incrOpStats_windows by done.
    split; [lia|]. split; [by rewrite length_fmap|].
    intros j w Hj. rewrite list_lookup_fmap, Hj. cbn [fmap option_fmap option_map].
    eexists; split; [reflexivity|].
    destruct (classify_window_calls (quot d 1000000) 0 DelayNumMark
                (incr_window d (Z.to_nat (tp_index d)) w)) as (-> & -> & _).
    done.
  - intros s evs Hs Hcl Hlen j Hj.
    pose proof (record_events_after evs s Hs Hcl Hlen) as Hall.
    destruct (record_events_shape evs s Hs) as [Hl _].
    destruct (lookup_lt_is_Some_2 (windows (record_events evs s)) j) as [w' Hw'];
      [lia|].
    exists w'. split; [done|].
    destruct (Forall_lookup_1 _ _ _ _ Hall Hw') as (Hc & _ & _ & Hsum). done.
Qed.

Lemma new_opStats_shape op : opStats_shape (new_opStats op).
Proof.
  split; [reflexivity|]. unfold new_opStats, IntervalMark.
  repeat constructor.
Qed.

Lemma new_opStats_cleared op : Forall window_cleared (windows (new_opStats op)).
Proof. unfold new_opStats, IntervalMark. repeat constructor. Qed.

Lemma incrOpStats_counts_events_witness :
  ∃ w', windows get_ten_6ms !! 0%nat = Some w'
    ∧ calls w' = Z.of_nat (length (replicate 10 (ms 6, TypeReply)))
    ∧ sum_Z (tp w') = Z.of_nat (length (replicate 10 (ms 6, TypeReply))).
Proof.
  apply (proj2 incrOpStats_counts_events (new_opStats "GET")
           (replicate 10 (ms 6, TypeReply))).
  - split; [reflexivity|repeat constructor].
  - repeat constructor.
  - vm_compute. discriminate.
  - unfold IntervalNum. lia.
Defined.

End Counting.

(** ** The threshold classifier *)

Section Classifier.
Import Int64 Int64Facts.

(** The effect of one scan on the eight counters of a window. *)
Lemma classify_window_lookup d w k mark :
  DelayNumMark !! k = Some mark →
  delayCount (classify_window d 0 DelayNumMark w) !! k
  = (λ c, if mark <=? d then add c 1 else c) <$> delayCount w !! k.
Proof.
  intros Hk. unfold DelayNumMark in *. cbn [classify_window].
  rewrite !Z.geb_leb.
  assert (Hid : ∀ o : option Z, o = (λ c, c) <$> o) by (by intros []).
  do 8 (destruct k as [|k]; [simplify_eq/=;
    repeat (case_match; cbn [delayCount incr_delayCount]);
    repeat match goal with H : (_ <=? _) = _ |- _ =>
      first [apply Z.leb_le in H | apply Z.leb_gt in H] end;
    try lia;
    rewrite ?list_lookup_alter_ne by lia; rewrite ?list_lookup_alter_eq;
    rewrite ?list_lookup_alter_ne by lia; first [done | apply Hid]|]).
  simplify_eq/=.
Qed.

Lemma count_reaching_snoc mark evs ev :
  count_reaching mark (evs ++ [ev])
  = count_reaching mark evs + (if mark <=? quot ev.1 1000000 then 1 else 0).
Proof.
  unfold count_reaching. rewrite filter_app, length_app.
  rewrite Nat2Z.inj_add. f_equal.
  destruct (mark <=? quot ev.1 1000000) eqn:Hm.
  - apply Z.leb_le in Hm. rewrite filter_cons_True by done. done.
  - apply Z.leb_gt in Hm. rewrite filter_cons_False by lia. done.
Qed.

Lemma count_reaching_bound mark evs :
  0 <= count_reaching mark evs <= Z.of_nat (length evs).
Proof.
  unfold count_reaching.
  pose proof (length_filter (λ ev : Z * RespType, mark <= quot ev.1 1000000) evs).
  lia.
Qed.

Lemma record_events_delays evs s :
  opStats_shape s → Forall window_cleared (windows s) →
  Z.of_nat (length evs) <= max_int →
  Forall (delays_counted evs) (windows (record_events evs s)).
Proof.
  intros Hs Hcl. induction evs as [|ev evs IH] using rev_ind; intros Hlen.
  - eapply Forall_impl; [exact Hcl|]. intros w (_ & _ & Hd).
    split; [by rewrite Hd, length_replicate|].
    intros k mark Hk. rewrite Hd.
    apply lookup_lt_Some in Hk. cbn in Hk.
    rewrite lookup_replicate_2 by (unfold DelayKindNum; lia). done.
  - rewrite length_app in Hlen. cbn [length] in Hlen.
    rewrite record_events_snoc.
    rewrite incrOpStats_windows by (apply record_events_shape; done).
    apply Forall_fmap. eapply Forall_impl; [apply IH; lia|].
    intros w [Hl Hw]. unfold compose, delays_counted.
    split.
    + destruct (classify_window_calls (quot ev.1 1000000) 0 DelayNumMark
                  (incr_window ev.1 (Z.to_nat (tp_index ev.1)) w)) as (_ & _ & ->).
      done.
    + intros k mark Hk. rewrite (classify_window_lookup _ _ _ _ Hk).
      cbn [delayCount incr_window]. rewrite (Hw k mark Hk).
      cbn [fmap option_fmap option_map]. f_equal.
      rewrite count_reaching_snoc.
      pose proof (count_reaching_bound mark evs).
      case_match; [|lia].
      apply add_small. unfold in_range, min_int, max_int in *. lia.
Qed.

(** C5. One run of the classifier on [d_ms] adds one, in each of the five
    windows, to [delayCount[k]] for exactly the thresholds [k] of
    {50,100,200,300,500,1000,2000,3000} with [d_ms >= threshold[k]]; so
    after a run of events on windows that were just reset, [delayCount[k]]
    is the number of events whose duration in ms reaches [threshold[k]] (for
    fewer than 2^63 events, where the 64-bit counters wrap). *)
Theorem incrDelayNum_counts_thresholds :
  (∀ s d_ms, opStats_shape s →
     ∀ j w, windows s !! j = Some w →
       ∃ w', windows (incrDelayNum d_ms s) !! j = Some w'
         ∧ ∀ k mark, DelayNumMark !! k = Some mark →
             delayCount w' !!! k
             = if mark <=? d_ms then add (delayCount w !!! k) 1
               else delayCount w !!! k)
  ∧ (∀ s evs, opStats_shape s → Forall window_cleared (windows s) →
       Z.of_nat (length evs) <= max_int →
       ∀ j k mark, (j < IntervalNum)%nat → DelayNumMark !! k = Some mark →
         ∃ w', windows (record_events evs s) !! j = Some w'
           ∧ delayCount w' !! k = Some (count_reaching mark evs)).
Proof.
  split.
  - intros s d_ms [Hlen Hall] j w Hj. unfold incrDelayNum. cbn [windows set_windows].
    rewrite incrDelayNum_from_fmap by (rewrite Hlen; done).
    rewrite list_lookup_fmap, Hj. cbn [fmap option_fmap option_map].
    eexists; split; [reflexivity|]. intros k mark Hk.
    pose proof (classify_window_lookup d_ms w k mark Hk) as Hlk.
    destruct (Forall_lookup_1 _ _ _ _ Hall Hj) as [_ Hdc].
    destruct (lookup_lt_is_Some_2 (delayCount w) k) as [c Hc].
    { apply lookup_lt_Some in Hk. cbn in Hk. rewrite Hdc. unfold DelayKindNum. lia. }
    rewrite Hc in Hlk. cbn [fmap option_fmap option_map] in Hlk.
    rewrite (list_lookup_total_correct _ _ _ Hlk).
    rewrite (list_lookup_total_correct _ _ _ Hc). done.
  - intros s evs Hs Hcl Hlen j k mark Hj Hk.
    pose proof (record_events_delays evs s Hs Hcl Hlen) as Hall.
    destruct (record_events_shape evs s Hs) as [Hl _].
    destruct (lookup_lt_is_Some_2 (windows (record_events evs s)) j) as [w' Hw'];
      [lia|].
    exists w'. split; [done|].
    destruct (Forall_lookup_1 _ _ _ _ Hall Hw') as [_ Hd]. by apply Hd.
Qed.

Lemma incrDelayNum_counts_thresholds_witness :
  let evs := (λ d, (ms d, TypeReply))
               <$> [10; 60; 120; 250; 400; 600; 1500; 2500; 3500] in
  ∃ w', windows (record_events evs (new_opStats "GET")) !! 0%nat = Some w'
    ∧ delayCount w' !! 2%nat = Some (count_reaching 200 evs).
Proof.
  apply (proj2 incrDelayNum_counts_thresholds (new_opStats "GET")
           ((λ d, (ms d, TypeReply))
              <$> [10; 60; 120; 250; 400; 600; 1500; 2500; 3500])).
  - split; [reflexivity|repeat constructor].
  - repeat constructor.
  - vm_compute. discriminate.
  - unfold IntervalNum. lia.
  - reflexivity.
Defined.

(** Scenario S2: nine events of 10, 60, 120, 250, 400, 600, 1500, 2500 and
    3500 ms leave the counts 8, 7, 6, 5, 4, 3, 2, 1 in every window. *)
Example threshold_counts_S2 :
  delayCount
  <$> windows (record_events
                 ((λ d, (ms d, TypeReply))
                    <$> [10; 60; 120; 250; 400; 600; 1500; 2500; 3500])
                 (new_opStats "GET"))
  = replicate 5 [8; 7; 6; 5; 4; 3; 2; 1].
Proof. vm_compute. reflexivity. Qed.

End Classifier.

(** ** The percentile walk *)

Section Percentiles.
Import Int64 Int64Facts.

(** A scan that starts inside the histogram leaves through [break], at a
    bucket between its start and the last one. *)
Lemma tp_scan_breaks h tpnum fuel i count :
  (i + fuel = Z.to_nat TPMaxNum)%nat → (0 < fuel)%nat →
  ∃ i' count', tp_scan h tpnum fuel i count = (Some (Z.of_nat i'), i', count')
               ∧ (i ≤ i' < Z.to_nat TPMaxNum)%nat.
Proof.
  revert i count. induction fuel as [|fuel IH]; intros i count Hsum Hpos; [lia|].
  cbn [tp_scan].
  destruct ((add count (h !!! i) >=? tpnum) || (Z.of_nat i =? TPMaxNum - 1))
    eqn:Hc.
  - eexists _, _. split; [reflexivity|]. lia.
  - apply orb_false_iff in Hc as [_ Hlast]. apply Z.eqb_neq in Hlast.
    change TPMaxNum with 70 in *.
    destruct (IH (S i) (add count (h !!! i))) as (i' & c' & Heq & Hb); [lia|lia|].
    exists i', c'. split; [done|lia].
Qed.

Lemma tp_first_bounds h tpnum :
  ∃ i count, tp_first h tpnum = (Z.of_nat i, i, count)
             ∧ (i < Z.to_nat TPMaxNum)%nat.
Proof.
  unfold tp_first.
  destruct (tp_scan_breaks h tpnum (Z.to_nat TPMaxNum) 0 0) as (i & c & -> & Hb);
    [done|change TPMaxNum with 70; lia|].
  exists i, c. split; [done|lia].
Qed.

Lemma tp_next_bounds h tpnum i count :
  (i < Z.to_nat TPMaxNum)%nat →
  ∃ i' count', tp_next h tpnum i count = (Z.of_nat i', i', count')
               ∧ (i ≤ i' < Z.to_nat TPMaxNum)%nat.
Proof.
  intros Hi. unfold tp_next.
  destruct ((count >=? tpnum) || (Z.of_nat i =? TPMaxNum - 1)) eqn:Hc.
  - exists i, count. split; [done|lia].
  - apply orb_false_iff in Hc as [_ Hlast]. apply Z.eqb_neq in Hlast.
    change TPMaxNum with 70 in *.
    destruct (tp_scan_breaks h tpnum (Z.to_nat 70 - S i) (S i) count)
      as (i' & c' & -> & Hb); [change TPMaxNum with 70; lia|lia|].
    change TPMaxNum with 70 in Hb.
    exists i', c'. split; [done|lia].
Qed.

Lemma tp_indices_ordered h callsv :
  ∃ i1 i2 i3 i4 : nat,
    tp_indices h callsv = (Z.of_nat i1, Z.of_nat i2, Z.of_nat i3, Z.of_nat i4)
    ∧ (i1 ≤ i2)%nat ∧ (i2 ≤ i3)%nat ∧ (i3 ≤ i4)%nat ∧ (i4 < Z.to_nat TPMaxNum)%nat.
Proof.
  unfold tp_indices.
  destruct (tp_first_bounds h (tpnum_of callsv 0.9)) as (i1 & c1 & -> & H1).
  destruct (tp_next_bounds h (tpnum_of callsv 0.99) i1 c1 H1)
    as (i2 & c2 & -> & H2).
  destruct (tp_next_bounds h (tpnum_of callsv 0.999) i2 c2 ltac:(lia))
    as (i3 & c3 & -> & H3).
  destruct (tp_next_bounds h (tpnum_of callsv 0.9999) i3 c3 ltac:(lia))
    as (i4 & c4 & -> & H4).
  exists i1, i2, i3, i4. split; [done|lia].
Qed.

Lemma tpdelay_lookup (i : nat) :
  (i < Z.to_nat TPMaxNum)%nat → tpdelay !!! i = tpdelay_at (Z.of_nat i).
Proof.
  intros Hi. apply list_lookup_total_correct. unfold tpdelay.
  rewrite list_lookup_fmap, lookup_seq_lt by done. done.
Qed.

Lemma tpdelay_at_mono i j : 0 <= i <= j → 5 <= tpdelay_at i <= tpdelay_at j.
Proof.
  intros Hij. unfold tpdelay_at, TPFirstGrade, TPFirstGradeSize, TPSecondGrade,
    TPSecondGradeSize, TPThirdGrade, TPThirdGradeSize.
  repeat case_match;
    repeat match goal with H : (_ <? _) = _ |- _ =>
      first [apply Z.ltb_lt in H | apply Z.ltb_ge in H] end; lia.
Qed.

(** With a non-zero call count the four percentiles are read from the
    table, at four ordered buckets. *)
Lemma refresh4TpInfo_published w :
  calls w ≠ 0 →
  ∃ i1 i2 i3 i4 : nat,
    tp_indices (tp w) (calls w)
    = (Z.of_nat i1, Z.of_nat i2, Z.of_nat i3, Z.of_nat i4)
    ∧ (i1 ≤ i2)%nat ∧ (i2 ≤ i3)%nat ∧ (i3 ≤ i4)%nat ∧ (i4 < Z.to_nat TPMaxNum)%nat
    ∧ refresh4TpInfo w
      = set_tp4 (tpdelay !!! i1) (tpdelay !!! i2) (tpdelay !!! i3) (tpdelay !!! i4) w.
Proof.
  intros Hc. destruct (tp_indices_ordered (tp w) (calls w))
    as (i1 & i2 & i3 & i4 & Heq & H12 & H23 & H34 & H4).
  exists i1, i2, i3, i4. repeat (split; [done|]).
  unfold refresh4TpInfo. rewrite Heq.
  destruct (calls w =? 0) eqn:Hz; [apply Z.eqb_eq in Hz; done|].
  change TPMaxNum with 70 in *.
  replace ((Z.of_nat i1 >=? 0) && (Z.of_nat i2 >=? Z.of_nat i1)
           && (Z.of_nat i3 >=? Z.of_nat i2) && (Z.of_nat i4 >=? Z.of_nat i3)
           && (Z.of_nat i4 <? 70)) with true.
  - by rewrite !Nat2Z.id.
  - symmetry. rewrite !andb_true_iff, !Z.geb_le, Z.ltb_lt. lia.
Qed.

Lemma refresh4TpInfo_frame w :
  calls (refresh4TpInfo w) = calls w ∧ nsecs (refresh4TpInfo w) = nsecs w
  ∧ nsecsmax (refresh4TpInfo w) = nsecsmax w.
Proof.
  unfold refresh4TpInfo. destruct (calls w =? 0); [done|].
  destruct (tp_indices (tp w) (calls w)) as [[[a b] c] d].
  case_match; done.
Qed.

(** The four percentiles that a refresh publishes are ordered. *)
Lemma refresh4TpInfo_ordered w :
  0 <= tp90 (refresh4TpInfo w)
  ∧ tp90 (refresh4TpInfo w) <= tp99 (refresh4TpInfo w)
  ∧ tp99 (refresh4TpInfo w) <= tp999 (refresh4TpInfo w)
  ∧ tp999 (refresh4TpInfo w) <= tp9999 (refresh4TpInfo w).
Proof.
  destruct (decide (calls w = 0)) as [Hz|Hnz].
  - unfold refresh4TpInfo. rewrite Hz. cbn. lia.
  - destruct (refresh4TpInfo_published w Hnz)
      as (i1 & i2 & i3 & i4 & _ & H12 & H23 & H34 & H4 & ->).
    cbn [tp90 tp99 tp999 tp9999 set_tp4].
    rewrite !tpdelay_lookup by lia.
    pose proof (tpdelay_at_mono (Z.of_nat i1) (Z.of_nat i2)).
    pose proof (tpdelay_at_mono (Z.of_nat i2) (Z.of_nat i3)).
    pose proof (tpdelay_at_mono (Z.of_nat i3) (Z.of_nat i4)).
    lia.
Qed.

Lemma refresh_window_fields since w :
  let w4 := refresh4TpInfo (set_qps (window_qps (calls w) since) w) in
  tp90 (refresh_window since w) = tp90 w4
  ∧ tp99 (refresh_window since w) = tp99 w4
  ∧ tp999 (refresh_window since w) = tp999 w4
  ∧ tp9999 (refresh_window since w) = tp9999 w4
  ∧ tp100 (refresh_window since w) = quot (nsecsmax w) 1000000
  ∧ avg (refresh_window since w)
    = if calls w =? 0 then 0 else quot (quot (nsecs w) 1000000) (calls w).
Proof.
  intros w4. unfold refresh_window.
  cbn [tp90 tp99 tp999 tp9999 tp100 avg resetDelayInfo refreshDelayInfo resetTpInfo
       refreshTpInfo].
  fold w4.
  destruct (refresh4TpInfo_frame (set_qps (window_qps (calls w) since) w))
    as (Hc & Hn & Hm).
  fold w4 in Hc, Hn, Hm. rewrite Hc, Hn, Hm. done.
Qed.

Lemma RefreshOpStats_lookup since index s :
  0 <= index < Z.of_nat IntervalNum →
  windows (RefreshOpStats since index s) !! Z.to_nat index
  = refresh_window since <$> windows s !! Z.to_nat index.
Proof.
  intros Hi. unfold RefreshOpStats.
  destruct ((index <? 0) || (index >=? Z.of_nat IntervalNum)) eqn:Hb.
  - apply orb_true_iff in Hb as [Hb|Hb];
      [apply Z.ltb_lt in Hb|apply Z.geb_le in Hb]; lia.
  - cbn [windows set_windows]. apply list_lookup_alter_eq.
Qed.

End Percentiles.

(** ** What a refresh publishes *)

Section Refresh.
Import Int64 Int64Facts.

(** C10. Whatever the histogram and the call count, the four bucket
    indices of [refresh4TpInfo] satisfy
    [0 <= index1 <= index2 <= index3 <= index4 < 70]; hence with a non-zero
    call count the four published percentiles are entries of [tpdelay] and
    none is -1: the fallback branch is never taken. *)
Theorem refresh4TpInfo_fallback_unreachable :
  (∀ h callsv,
     let '(index1, index2, index3, index4) := tp_indices h callsv in
     0 <= index1 ∧ index1 <= index2 ∧ index2 <= index3 ∧ index3 <= index4
     ∧ index4 < TPMaxNum)
  ∧ (∀ w, calls w ≠ 0 →
       let w' := refresh4TpInfo w in
       (tp90 w' ∈ tpdelay ∧ tp99 w' ∈ tpdelay
        ∧ tp999 w' ∈ tpdelay ∧ tp9999 w' ∈ tpdelay)
       ∧ tp90 w' ≠ -1 ∧ tp99 w' ≠ -1 ∧ tp999 w' ≠ -1 ∧ tp9999 w' ≠ -1).
Proof.
  split.
  - intros h callsv.
    destruct (tp_indices_ordered h callsv)
      as (i1 & i2 & i3 & i4 & -> & H12 & H23 & H34 & H4).
    change TPMaxNum with 70 in *. lia.
  - intros w Hc w'. subst w'.
    destruct (refresh4TpInfo_published w Hc)
      as (i1 & i2 & i3 & i4 & _ & H12 & H23 & H34 & H4 & ->).
    cbn [tp90 tp99 tp999 tp9999 set_tp4].
    assert (Hlen : length tpdelay = Z.to_nat TPMaxNum)
      by (unfold tpdelay; by rewrite length_fmap, length_seq).
    split.
    + repeat split; apply list_elem_of_lookup_total_2; lia.
    + rewrite !tpdelay_lookup by lia.
      pose proof (tpdelay_at_mono (Z.of_nat i1) (Z.of_nat i1)).
      pose proof (tpdelay_at_mono (Z.of_nat i2) (Z.of_nat i2)).
      pose proof (tpdelay_at_mono (Z.of_nat i3) (Z.of_nat i3)).
      pose proof (tpdelay_at_mono (Z.of_nat i4) (Z.of_nat i4)).
      lia.
Qed.

Lemma refresh4TpInfo_fallback_unreachable_witness :
  let w' := refresh4TpInfo (windows get_after_6ms !!! 0%nat) in
  (tp90 w' ∈ tpdelay ∧ tp99 w' ∈ tpdelay ∧ tp999 w' ∈ tpdelay ∧ tp9999 w' ∈ tpdelay)
  ∧ tp90 w' ≠ -1 ∧ tp99 w' ≠ -1 ∧ tp999 w' ≠ -1 ∧ tp9999 w' ≠ -1.
Proof.
  apply (proj2 refresh4TpInfo_fallback_unreachable
           (windows get_after_6ms !!! 0%nat)).
  vm_compute. discriminate.
Defined.

(** C2, as the code has it.  After [RefreshOpStats] on a window, the
    published percentiles satisfy [0 <= tp90 <= tp99 <= tp999 <= tp9999],
    so that none of them is -1.  (The last link of the chain in the
    specification, [tp9999 <= tp100], is not kept: the percentiles are upper
    edges of buckets, [tp100] is the largest duration itself.) *)
Theorem RefreshOpStats_percentiles_ordered :
  ∀ s since index w',
    0 <= index < Z.of_nat IntervalNum →
    windows (RefreshOpStats since index s) !! Z.to_nat index = Some w' →
    0 <= tp90 w' ∧ tp90 w' <= tp99 w' ∧ tp99 w' <= tp999 w'
    ∧ tp999 w' <= tp9999 w'.
Proof.
  intros s since index w' Hi Hw'.
  rewrite RefreshOpStats_lookup in Hw' by done.
  destruct (windows s !! Z.to_nat index) as [w|]; [|discriminate].
  cbn [fmap option_fmap option_map] in Hw'. injection Hw' as <-.
  destruct (refresh_window_fields since w) as (-> & -> & -> & -> & _).
  apply refresh4TpInfo_ordered.
Qed.

Lemma RefreshOpStats_percentiles_ordered_witness :
  let w' := windows get_refreshed !!! 0%nat in
  0 <= tp90 w' ∧ tp90 w' <= tp99 w' ∧ tp99 w' <= tp999 w'
  ∧ tp999 w' <= tp9999 w'.
Proof.
  apply (RefreshOpStats_percentiles_ordered get_after_6ms Second 0).
  - unfold IntervalNum. lia.
  - vm_compute. reflexivity.
Defined.

(** C2, as the specification has it, fails: ten requests of 6 ms and a
    refresh publish 10 ms for each of the four percentiles, none of them -1,
    and 6 ms for [tp100]. *)
Lemma RefreshOpStats_tp9999_above_tp100 :
  let w' := windows get_ten_refreshed !!! 0%nat in
  tp90 w' = 10 ∧ tp99 w' = 10 ∧ tp999 w' = 10 ∧ tp9999 w' = 10 ∧ tp100 w' = 6
  ∧ (tp9999 w' <=? tp100 w') = false.
Proof. vm_compute. repeat split. Qed.

(** C6. A refresh of a window with [calls ≠ 0] publishes
    [avg = nsecs / calls / 1e6] (integer divisions, in this order) and
    publishes 0 when [calls = 0].  The code divides by 1e6 first; the two
    orders give the same integer.  The single pair that overflows a 64-bit
    division, [nsecs = -2^63] with [calls = -1], is left aside. *)
Theorem RefreshOpStats_avg :
  ∀ s since index w w',
    0 <= index < Z.of_nat IntervalNum →
    windows s !! Z.to_nat index = Some w →
    in_range (nsecs w) → in_range (calls w) →
    windows (RefreshOpStats since index s) !! Z.to_nat index = Some w' →
    (calls w = 0 → avg w' = 0)
    ∧ (calls w ≠ 0 → ¬ (nsecs w = min_int ∧ calls w = -1) →
       avg w' = Z.quot (Z.quot (nsecs w) (calls w)) 1000000).
Proof.
  intros s since index w w' Hi Hw Hn Hc Hw'.
  rewrite RefreshOpStats_lookup, Hw in Hw' by done.
  cbn [fmap option_fmap option_map] in Hw'. injection Hw' as <-.
  destruct (refresh_window_fields since w) as (_ & _ & _ & _ & _ & ->).
  split.
  - intros ->. done.
  - intros Hnz Hov.
    destruct (calls w =? 0) eqn:Hz; [apply Z.eqb_eq in Hz; done|].
    rewrite (quot_pos_small (nsecs w) 1000000) by (done || lia).
    rewrite quot_small.
    + rewrite !Z.quot_quot by (done || lia). f_equal. lia.
    + unfold in_range, min_int, max_int in *.
      Z.to_euclidean_division_equations. lia.
    + done.
    + done.
    + unfold in_range, min_int, max_int in *.
      intros [Hm _]. Z.to_euclidean_division_equations. lia.
Qed.

Lemma RefreshOpStats_avg_witness :
  let w := windows get_after_6ms !!! 0%nat in
  let w' := windows get_refreshed !!! 0%nat in
  (calls w = 0 → avg w' = 0)
  ∧ (calls w ≠ 0 → ¬ (nsecs w = min_int ∧ calls w = -1) →
     avg w' = Z.quot (Z.quot (nsecs w) (calls w)) 1000000).
Proof.
  apply (RefreshOpStats_avg get_after_6ms Second 0).
  - unfold IntervalNum. lia.
  - vm_compute. reflexivity.
  - vm_compute. split; discriminate.
  - vm_compute. split; discriminate.
  - vm_compute. reflexivity.
Defined.

End Refresh.

(** ** [ResetStats] *)

Section Reset.

(** C7. [ResetStats] zeroes [totalCalls], [totalNsecs], [totalFails] and
    [redis.errors] of every command in the registry and the process-wide
    [total], [fails] and [redis.errors]; it removes no entry and leaves the
    windows of every command, counters and derived fields alike, as they
    were. *)
Theorem ResetStats_zeroes_totals :
  ∀ st,
    dom (opmap (cmdstats (ResetStats st))) = dom (opmap (cmdstats st))
    ∧ (∀ k v, opmap (cmdstats st) !! k = Some v →
         ∃ v', opmap (cmdstats (ResetStats st)) !! k = Some v'
           ∧ totalCalls v' = 0 ∧ totalNsecs v' = 0 ∧ totalFails v' = 0
           ∧ redis_errors v' = 0
           ∧ windows v' = windows v ∧ opstr v' = opstr v)
    ∧ OpTotal (ResetStats st) = 0 ∧ OpFails (ResetStats st) = 0
    ∧ OpRedisErrors (ResetStats st) = 0.
Proof.
  intros st. unfold ResetStats, OpTotal, OpFails, OpRedisErrors.
  cbn [cmdstats opmap total fails cmd_redis_errors].
  split; [apply dom_fmap_L|]. split; [|done].
  intros k v Hk. exists (reset_op v).
  rewrite lookup_fmap, Hk. done.
Qed.

(** C9. [ResetStats] also overwrites the total of the session gauges with
    the number of live sessions: right after it, [SessionsTotal] equals
    [SessionsAlive], which is unchanged. *)
Theorem ResetStats_sessions :
  ∀ st,
    SessionsTotal (ResetStats st) = SessionsAlive (ResetStats st)
    ∧ SessionsAlive (ResetStats st) = SessionsAlive st.
Proof. intros st. done. Qed.

End Reset.

(** ** The slow-command controller *)

Section SlowController.
Import Int64 Int64Facts.

Lemma slow_tick_running now c :
  refreshPeriod c > 0 → autoSetSlowFlag c = true →
  slow_tick now c
  = slow_tick_sweep (mul (refreshPeriod c) ClearSlowFlagPeriodRate) now c.
Proof.
  intros Hp Hf. unfold slow_tick, slow_tick_begin. rewrite Hf.
  destruct (refreshPeriod c <=? 0) eqn:Hle; [apply Z.leb_le in Hle; lia|done].
Qed.

(** The callbacks of a sweep are those of the steps on the entries. *)
Lemma slow_tick_sweep_events d now c e :
  e ∈ (slow_tick_sweep d now c).2 ↔
  autoSetSlowFlag c = true
  ∧ ∃ k v, opmap c !! k = Some v ∧ e ∈ (slow_step (logSlowerThan c) d now v).2.
Proof.
  unfold slow_tick_sweep. destruct (autoSetSlowFlag c); cbn [snd].
  - rewrite list_elem_of_join. split.
    + intros (l & He & Hl). split; [done|].
      apply list_elem_of_fmap in Hl as ([k v] & -> & Hkv).
      apply elem_of_map_to_list in Hkv. by exists k, v.
    + intros (_ & k & v & Hkv & He). eexists; split; [exact He|].
      apply list_elem_of_fmap. exists (k, v). split; [done|].
      by apply elem_of_map_to_list.
  - split; [by intros ?%elem_of_nil|by intros [? _]].
Qed.

Lemma slow_tick_sweep_lookup d now c k :
  autoSetSlowFlag c = true →
  opmap (slow_tick_sweep d now c).1 !! k
  = (λ v, (slow_step (logSlowerThan c) d now v).1) <$> opmap c !! k.
Proof.
  intros Hf. unfold slow_tick_sweep. rewrite Hf. cbn [fst opmap set_opmap].
  apply lookup_fmap.
Qed.

Lemma slow_step_set lst d now v :
  SetMaySlowOp (opstr v) ∈ (slow_step lst d now v).2 ↔ slow_set_cond lst v = true.
Proof.
  unfold slow_step. destruct (slow_set_cond lst v); cbn [snd].
  - rewrite list_elem_of_singleton. done.
  - destruct (slow_clear_cond d now v); cbn [snd].
    + rewrite list_elem_of_singleton. split; [done|discriminate].
    + split; [by intros ?%elem_of_nil|discriminate].
Qed.

Lemma slow_step_events lst d now v e :
  e ∈ (slow_step lst d now v).2 →
  (e = SetMaySlowOp (opstr v) ∧ slow_set_cond lst v = true)
  ∨ (e = ClearMaySlowOp (opstr v) ∧ slow_set_cond lst v = false
     ∧ slow_clear_cond d now v = true).
Proof.
  unfold slow_step. destruct (slow_set_cond lst v); cbn [snd].
  - intros ->%list_elem_of_singleton. by left.
  - destruct (slow_clear_cond d now v); cbn [snd].
    + intros ->%list_elem_of_singleton. by right.
    + by intros ?%elem_of_nil.
Qed.

Lemma slow_set_cond_not_all lst v : opstr v = "ALL" → slow_set_cond lst v = false.
Proof.
  intros Hv. unfold slow_set_cond. rewrite bool_decide_eq_false_2 by (by intros []).
  apply andb_false_r.
Qed.

End SlowController.

(** ** The registry stays well-formed *)

Section Registry.

Lemma registry_wf_fmap (f : opStats → opStats) m :
  (∀ v, opstr (f v) = opstr v) → registry_wf m → registry_wf (f <$> m).
Proof.
  intros Hf Hm. unfold registry_wf. apply map_Forall_fmap.
  intros k v Hk. cbn. rewrite Hf. by apply Hm.
Qed.

Lemma incrOpStats_opstr d t s : opstr (incrOpStats d t s) = opstr s.
Proof.
  unfold incrOpStats, incrDelayNum, incrTP. cbn [opstr set_windows].
  by destruct (tp_index d <? 0).
Qed.

Lemma RefreshOpStats_opstr since index s :
  opstr (RefreshOpStats since index s) = opstr s.
Proof.
  unfold RefreshOpStats.
  by destruct ((index <? 0) || (index >=? Z.of_nat IntervalNum)).
Qed.

Lemma slow_step_opstr lst d now v : opstr (slow_step lst d now v).1 = opstr v.
Proof.
  unfold slow_step.
  by destruct (slow_set_cond lst v), (slow_clear_cond d now v).
Qed.

Lemma init_registry_wf : registry_wf (opmap init_cmdstats).
Proof. apply map_Forall_empty. Qed.

Lemma with_op_wf op f c :
  (∀ v, opstr (f v) = opstr v) →
  registry_wf (opmap c) → registry_wf (opmap (with_op op f c)).
Proof.
  intros Hf Hm. unfold with_op, getOpStats.
  assert (Halter : ∀ m, registry_wf m → registry_wf (alter f op m)).
  { intros m Hwf k v. rewrite lookup_alter. case_decide as Hk.
    - subst k. destruct (m !! op) as [v0|] eqn:Hop; [|discriminate].
      intros [= <-]. rewrite Hf. by apply (Hwf op).
    - apply Hwf. }
  destruct (opmap c !! op) eqn:Hop; cbn [snd opmap set_opmap]; apply Halter.
  - done.
  - apply map_Forall_insert_2; done.
Qed.

Lemma incrOpStats_request_wf now r t c :
  registry_wf (opmap c) → registry_wf (opmap (incrOpStats_request now r t c)).
Proof.
  intros Hm. unfold incrOpStats_request. destruct r as [r|]; [|done].
  assert (registry_wf
            (opmap (with_op "ALL"
                      (incrOpStats (Int64.sub now (ReceiveTime r)) t)
                      (with_op (OpStr r)
                         (incrOpStats (Int64.sub now (ReceiveTime r)) t) c))))
    by (do 2 (apply with_op_wf; [apply incrOpStats_opstr|]); done).
  by destruct t.
Qed.

Lemma refresh_all_wf since index c :
  registry_wf (opmap c) → registry_wf (opmap (refresh_all since index c)).
Proof. apply registry_wf_fmap, RefreshOpStats_opstr. Qed.

Lemma slow_tick_wf now c :
  registry_wf (opmap c) → registry_wf (opmap (slow_tick now c).1).
Proof.
  intros Hm. unfold slow_tick. destruct (slow_tick_begin c); [|done].
  unfold slow_tick_sweep. destruct (autoSetSlowFlag c); [|done].
  cbn [fst opmap set_opmap]. apply registry_wf_fmap; [|done].
  intros v. apply slow_step_opstr.
Qed.

Lemma ResetStats_wf st :
  registry_wf (opmap (cmdstats st)) →
  registry_wf (opmap (cmdstats (ResetStats st))).
Proof. by apply registry_wf_fmap. Qed.

End Registry.

Section SlowControllerClaims.
Import Int64 Int64Facts.

(** C1, as the code has it.  In a round of the controller with
    [refreshPeriod > 0] and [autoSetSlowFlag] set, for every command of the
    registry other than "ALL", [SetMaySlowOp] is called on it, and its
    [lastSetSlowTime] becomes [now], exactly when [tp100] of its first
    window, in ms, times 1e3 exceeds [logSlowerThan]: the threshold is
    compared with [tp100] in microseconds, not in nanoseconds. *)
Theorem slow_tick_sets_slow_flag :
  ∀ c now k v,
    refreshPeriod c > 0 → autoSetSlowFlag c = true →
    registry_wf (opmap c) → opmap c !! k = Some v → opstr v ≠ "ALL" →
    in_range (tp100 (windows v !!! 0%nat) * 1000) →
    (SetMaySlowOp (opstr v) ∈ (slow_tick now c).2
     ↔ tp100 (windows v !!! 0%nat) * 1000 > logSlowerThan c)
    ∧ ∃ v', opmap (slow_tick now c).1 !! k = Some v'
        ∧ (tp100 (windows v !!! 0%nat) * 1000 > logSlowerThan c →
           lastSetSlowTime v' = now)
        ∧ (¬ (tp100 (windows v !!! 0%nat) * 1000 > logSlowerThan c) →
           lastSetSlowTime v' = lastSetSlowTime v).
Proof.
  intros c now k v Hp Hf Hwf Hk Hne Hr.
  rewrite slow_tick_running by done.
  set (d := mul (refreshPeriod c) ClearSlowFlagPeriodRate).
  assert (Hcond : slow_set_cond (logSlowerThan c) v = true
                  ↔ tp100 (windows v !!! 0%nat) * 1000 > logSlowerThan c).
  { unfold slow_set_cond. rewrite mul_small by done.
    rewrite bool_decide_eq_true_2 by done. rewrite andb_true_r.
    rewrite Z.gtb_ltb, Z.ltb_lt. lia. }
  split.
  - rewrite slow_tick_sweep_events, <- Hcond. split.
    + intros (_ & k2 & v2 & Hk2 & He).
      apply slow_step_events in He as [[Heq Hc]|[Heq _]]; [|discriminate].
      injection Heq as Heq.
      assert (k2 = k) as -> by (rewrite <- (Hwf k2 v2 Hk2), <- (Hwf k v Hk); done).
      by simplify_eq.
    + intros Hc. split; [done|]. exists k, v. split; [done|].
      by apply slow_step_set.
  - rewrite slow_tick_sweep_lookup, Hk by done.
    eexists; split; [reflexivity|]. rewrite <- Hcond. unfold slow_step.
    destruct (slow_set_cond (logSlowerThan c) v); cbn [fst].
    + split; [done|]. intros []. done.
    + split; [discriminate|]. intros _.
      by destruct (slow_clear_cond d now v).
Qed.

Lemma slow_tick_sets_slow_flag_witness :
  let c := sample_cmdstats in
  let now := sample_now + Second in
  let v := opmap c !!! "GET" in
  (SetMaySlowOp (opstr v) ∈ (slow_tick now c).2
   ↔ tp100 (windows v !!! 0%nat) * 1000 > logSlowerThan c)
  ∧ ∃ v', opmap (slow_tick now c).1 !! "GET" = Some v'
      ∧ (tp100 (windows v !!! 0%nat) * 1000 > logSlowerThan c →
         lastSetSlowTime v' = now)
      ∧ (¬ (tp100 (windows v !!! 0%nat) * 1000 > logSlowerThan c) →
         lastSetSlowTime v' = lastSetSlowTime v).
Proof.
  apply (slow_tick_sets_slow_flag sample_cmdstats (sample_now + Second) "GET").
  - vm_compute. reflexivity.
  - vm_compute. reflexivity.
  - apply (bool_decide_unpack _). vm_compute. exact I.
  - vm_compute. reflexivity.
  - apply (bool_decide_unpack _). vm_compute. exact I.
  - vm_compute. split; discriminate.
Defined.

(** C1, as the specification has it, fails: with [tp100 = 7] ms and
    [logSlowerThan = 10000], 7 * 1e6 exceeds the threshold, yet the round
    neither calls [SetMaySlowOp] on GET nor moves its [lastSetSlowTime]. *)
Lemma slow_tick_not_in_nanoseconds :
  let c := sample_cmdstats in
  let now := sample_now + Second in
  let v := opmap c !!! "GET" in
  (refreshPeriod c > 0 ∧ autoSetSlowFlag c = true ∧ opstr v = "GET")
  ∧ tp100 (windows v !!! 0%nat) = 7 ∧ logSlowerThan c = 10000
  ∧ (tp100 (windows v !!! 0%nat) * 1000000 > logSlowerThan c)
  ∧ (SetMaySlowOp "GET" ∉ (slow_tick now c).2)
  ∧ lastSetSlowTime (opmap (slow_tick now c).1 !!! "GET") = 0.
Proof.
  repeat split; try (vm_compute; reflexivity).
  apply (bool_decide_unpack _). vm_compute. exact I.
Qed.

(** C8, as the code has it.  No round of the controller calls
    [SetMaySlowOp] on "ALL".  The clear branch has no such guard: in a round
    with [refreshPeriod > 0] and [autoSetSlowFlag] set, [ClearMaySlowOp] is
    called on "ALL" exactly when its [lastSetSlowTime >= lastClearSlowTime]
    and [now - lastSetSlowTime >= clearSlowDuration]. *)
Theorem slow_tick_never_sets_ALL :
  (∀ c now, SetMaySlowOp "ALL" ∉ (slow_tick now c).2)
  ∧ (∀ c now v,
       refreshPeriod c > 0 → autoSetSlowFlag c = true →
       registry_wf (opmap c) → opmap c !! "ALL" = Some v →
       (ClearMaySlowOp "ALL" ∈ (slow_tick now c).2
        ↔ slow_clear_cond (mul (refreshPeriod c) ClearSlowFlagPeriodRate) now v
          = true)).
Proof.
  split.
  - intros c now He. unfold slow_tick in He.
    destruct (slow_tick_begin c) as [d|]; [|by apply elem_of_nil in He].
    apply slow_tick_sweep_events in He as (_ & k & v & _ & He).
    apply slow_step_events in He as [[Heq Hc]|[Heq _]]; [|discriminate].
    injection Heq as Heq. rewrite slow_set_cond_not_all in Hc by done.
    discriminate.
  - intros c now v Hp Hf Hwf Hk.
    rewrite slow_tick_running by done.
    set (d := mul (refreshPeriod c) ClearSlowFlagPeriodRate).
    pose proof (Hwf _ _ Hk) as Hv. cbn in Hv.
    rewrite slow_tick_sweep_events. split.
    + intros (_ & k2 & v2 & Hk2 & He).
      apply slow_step_events in He as [[Heq _]|(Heq & _ & Hc)]; [discriminate|].
      injection Heq as Heq.
      assert (k2 = "ALL") as -> by (rewrite <- (Hwf k2 v2 Hk2); done).
      by simplify_eq.
    + intros Hc. split; [done|]. exists "ALL", v. split; [done|].
      unfold slow_step. rewrite slow_set_cond_not_all by done.
      fold d. rewrite Hc, Hv. cbn [snd]. by apply list_elem_of_singleton.
Qed.

Lemma slow_tick_never_sets_ALL_witness :
  let c := sample_cmdstats in
  let now := sample_now + Second in
  ClearMaySlowOp "ALL" ∈ (slow_tick now c).2
  ↔ slow_clear_cond (mul (refreshPeriod c) ClearSlowFlagPeriodRate) now
      (opmap c !!! "ALL") = true.
Proof.
  apply (proj2 slow_tick_never_sets_ALL sample_cmdstats (sample_now + Second)).
  - vm_compute. reflexivity.
  - vm_compute. reflexivity.
  - apply (bool_decide_unpack _). vm_compute. exact I.
  - vm_compute. reflexivity.
Defined.

(** C8, as the specification has it, fails: the first round after a GET
    has been served calls [ClearMaySlowOp] on "ALL". *)
Lemma slow_tick_clears_ALL :
  let c := sample_cmdstats in
  let now := sample_now + Second in
  (refreshPeriod c > 0 ∧ autoSetSlowFlag c = true)
  ∧ opstr (opmap c !!! "ALL") = "ALL"
  ∧ (ClearMaySlowOp "ALL" ∈ (slow_tick now c).2)
  ∧ lastClearSlowTime (opmap (slow_tick now c).1 !!! "ALL") = now.
Proof.
  repeat split; try (vm_compute; reflexivity).
  apply (bool_decide_unpack _). vm_compute. exact I.
Qed.

End SlowControllerClaims.
